(** * stargazer: landmark, world and image coordinate transformations

    A shallow embedding of [include/stargazer/CoordinateTransformations.h].
    The three function templates [transformLM2World], [transformWorld2Img]
    and [transformLM2Img] are generic over a numeric type [T]; here [T] is
    any type carrying the operators the templates use (class [Scalar]), and
    the rotation primitive they call is an operation on [T] triples (class
    [Rotation]).  The functions write through output pointers, print on
    [std::cout] and divide; all three effects are threaded explicitly. *)

From Stdlib Require Import ZArith List String Ascii Bool Reals Lra Field RNsatz.
Import ListNotations.

(** ** Slot indices of the parameter vectors *)

Module POSE.
(** Modelled from the spec: [StargazerTypes.h], which declares
    [enum POSE], is not among the sources.  A pose is an ordered
    six-element vector with the slots X, Y, Z (translation) followed by
    Rx, Ry, Rz (rotation vector). *)
Inductive t : Set := X | Y | Z | Rx | Ry | Rz.

(** The cast [(int)POSE::k]. *)
Definition to_int (k : t) : BinNums.Z :=
  match k with
  | X => 0 | Y => 1 | Z => 2 | Rx => 3 | Ry => 4 | Rz => 5
  end%Z.
End POSE.

Module INTRINSICS.
(** Modelled from the spec: [StargazerTypes.h], which declares
    [enum INTRINSICS], is not among the sources.  The intrinsics are an
    ordered six-element vector with the slots f, u0, v0, alpha, beta,
    theta (the order the comment in [transformWorld2Img] repeats). *)
Inductive t : Set := f | u0 | v0 | alpha | beta | theta.

(** The cast [(int)INTRINSICS::k]. *)
Definition to_int (k : t) : Z :=
  match k with
  | f => 0 | u0 => 1 | v0 => 2 | alpha => 3 | beta => 4 | theta => 5
  end%Z.
End INTRINSICS.

Module stargazer.

(** ** The numeric type [T] of the templates *)

(** What the templates ask of [T]: construction from a numeric literal
    ([T(0.)], [T(0)], [T(1)]), the four arithmetic operators, unary minus
    and [operator==]. *)
Class Scalar (T : Type) : Type := {
  Tlit : Z -> T;
  Tadd : T -> T -> T;
  Tsub : T -> T -> T;
  Tmul : T -> T -> T;
  Tdiv : T -> T -> T;
  Tneg : T -> T;
  Teqb : T -> T -> bool
}.

(** [ceres::AngleAxisRotatePoint(angle_axis, pt, result)]: the rotation
    primitive of the ceres library, which the transformations call and do
    not define.  It is taken as an operation from the rotation vector and
    the point to the rotated point, also where the caller passes the same
    array as [pt] and as [result]. *)
Class Rotation (T : Type) : Type := {
  AngleAxisRotatePoint : T * T * T -> T * T * T -> T * T * T
}.

Declare Scope scalar_scope.
Delimit Scope scalar_scope with S.
Notation "a + b" := (Tadd a b) : scalar_scope.
Notation "a - b" := (Tsub a b) : scalar_scope.
Notation "a * b" := (Tmul a b) : scalar_scope.
Notation "a / b" := (Tdiv a b) : scalar_scope.
Notation "- a" := (Tneg a) : scalar_scope.
Notation "a == b" := (Teqb a b) (at level 70, no associativity) : scalar_scope.

(** [std::endl]: a newline (the flush has no content of its own). *)
Definition endl : string := String (ascii_of_nat 10) EmptyString.

Section Transformations.

Context {T : Type} {ST : Scalar T} {RT : Rotation T}.
Local Open Scope scalar_scope.

(** *** Effects *)

(** What a call leaves behind besides its outputs: the characters written
    to [std::cout], and the operands (dividend, divisor) of every [/] that
    the transformations execute, oldest first.  What the rotation primitive
    computes inside is not looked into. *)
Record state : Type := mkState {
  cout : string;
  divisions : list (T * T)
}.

(** A computation either runs to its return, giving a value and the new
    state, or has no defined behaviour ([None]): a read past the end of an
    array or of an object that was never assigned. *)
Definition M (A : Type) : Type := state -> option (A * state).

Definition ret {A : Type} (a : A) : M A := fun s => Some (a, s).

Definition bind {A B : Type} (m : M A) (k : A -> M B) : M B :=
  fun s => match m s with
           | Some (a, s') => k a s'
           | None => None
           end.

Notation "x <- m ;; k" := (bind m (fun x => k))
  (at level 61, m at next level, right associativity).
Notation "m ;; k" := (bind m (fun _ => k))
  (at level 61, right associativity).

(** An object of type [T] in the caller's memory: [None] until it is
    first assigned. *)
Definition cell : Type := option T.

(** [*p] for a [const T*]. *)
Definition deref (p : cell) : M T :=
  fun s => match p with
           | Some v => Some (v, s)
           | None => None
           end.

(** The element [a[i]] of a parameter vector, as a value. *)
Definition at_index (a : list T) (i : Z) : option T :=
  if (i <? 0)%Z then None else nth_error a (Z.to_nat i).

(** [a[i]] for a [const T*] to the first element of a parameter vector. *)
Definition index (a : list T) (i : Z) : M T :=
  fun s => match at_index a i with
           | Some v => Some (v, s)
           | None => None
           end.

(** [a / b], keeping its operands. *)
Definition divide (a b : T) : M T :=
  fun s => Some (a / b,
                 {| cout := cout s; divisions := divisions s ++ [(a, b)] |}).

(** [std::cout << msg]. *)
Definition print (msg : string) : M unit :=
  fun s => Some (tt, {| cout := cout s ++ msg; divisions := divisions s |}).

(** *** transformLM2World

    [out] is the content of [*x_out], [*y_out], [*z_out] at the call; the
    result is their content at the return. *)
Definition transformLM2World (x_in y_in : cell) (lm_pose : list T)
    (out : cell * cell * cell) : M (cell * cell * cell) :=
  let '(x_out, y_out, z_out) := out in
  (* Create point in Landmark coordinates *)
  p_lm0 <- deref x_in ;;
  p_lm1 <- deref y_in ;;
  let p_lm2 := Tlit 0 in
  (* Transform point from Landmark to world coordinates *)
  angleAxisLM0 <- index lm_pose (POSE.to_int POSE.Rx) ;;
  angleAxisLM1 <- index lm_pose (POSE.to_int POSE.Ry) ;;
  angleAxisLM2 <- index lm_pose (POSE.to_int POSE.Rz) ;;
  let '(p_w0, p_w1, p_w2) :=
    AngleAxisRotatePoint (angleAxisLM0, angleAxisLM1, angleAxisLM2)
                         (p_lm0, p_lm1, p_lm2) in
  tX <- index lm_pose (POSE.to_int POSE.X) ;;
  let p_w0 := p_w0 + tX in
  tY <- index lm_pose (POSE.to_int POSE.Y) ;;
  let p_w1 := p_w1 + tY in
  tZ <- index lm_pose (POSE.to_int POSE.Z) ;;
  let p_w2 := p_w2 + tZ in
  let x_out := Some p_w0 in
  let y_out := Some p_w1 in
  let z_out := Some p_w2 in
  ret (x_out, y_out, z_out).

(** *** transformWorld2Img

    [out] is the content of [*x_out], [*y_out] at the call; the result is
    their content at the return. *)
Definition transformWorld2Img (x_in y_in z_in : cell)
    (camera_pose camera_intrinsics : list T) (out : cell * cell)
    : M (cell * cell) :=
  let '(x_out, y_out) := out in
  (* Create point in world coordinates *)
  p_w0 <- deref x_in ;;
  p_w1 <- deref y_in ;;
  p_w2 <- deref z_in ;;
  (* Transform point to camera coordinates *)
  cX <- index camera_pose (POSE.to_int POSE.X) ;;
  let p_c0 := p_w0 - cX in
  cY <- index camera_pose (POSE.to_int POSE.Y) ;;
  let p_c1 := p_w1 - cY in
  cZ <- index camera_pose (POSE.to_int POSE.Z) ;;
  let p_c2 := p_w2 - cZ in
  cRx <- index camera_pose (POSE.to_int POSE.Rx) ;;
  let angleAxisCam0 := - cRx in
  cRy <- index camera_pose (POSE.to_int POSE.Ry) ;;
  let angleAxisCam1 := - cRy in
  cRz <- index camera_pose (POSE.to_int POSE.Rz) ;;
  let angleAxisCam2 := - cRz in
  (* result is p_c itself: the rotated point replaces the translated one *)
  let '(p_c0, p_c1, p_c2) :=
    AngleAxisRotatePoint (angleAxisCam0, angleAxisCam1, angleAxisCam2)
                         (p_c0, p_c1, p_c2) in
  (* Transform point to image coordinates *)
  i_f <- index camera_intrinsics (INTRINSICS.to_int INTRINSICS.f) ;;
  i_alpha <- index camera_intrinsics (INTRINSICS.to_int INTRINSICS.alpha) ;;
  i_u0 <- index camera_intrinsics (INTRINSICS.to_int INTRINSICS.u0) ;;
  let p_i0 := i_f * i_alpha * p_c0 + Tlit 0 * p_c1 + i_u0 * p_c2 in
  i_f' <- index camera_intrinsics (INTRINSICS.to_int INTRINSICS.f) ;;
  i_beta <- index camera_intrinsics (INTRINSICS.to_int INTRINSICS.beta) ;;
  q <- divide (i_f' * i_beta * p_c1) (Tlit 1) ;;
  i_v0 <- index camera_intrinsics (INTRINSICS.to_int INTRINSICS.v0) ;;
  let p_i1 := Tlit 0 * p_c0 + q + i_v0 * p_c2 in
  let p_i2 := p_c2 in
  if p_i2 == Tlit 0 then
    print "WARNING; Attempt to divide by 0!" ;;
    print endl ;;
    ret (x_out, y_out)
  else
    p_i0 <- divide p_i0 p_i2 ;;
    p_i1 <- divide p_i1 p_i2 ;;
    p_i2 <- divide p_i2 p_i2 ;;
    let x_out := Some p_i0 in
    let y_out := Some p_i1 in
    ret (x_out, y_out).

(** *** transformLM2Img *)
Definition transformLM2Img (x_in y_in : cell)
    (lm_pose camera_pose camera_intrinsics : list T) (out : cell * cell)
    : M (cell * cell) :=
  (* T x_w, y_w, z_w; *)
  let x_w : cell := None in
  let y_w : cell := None in
  let z_w : cell := None in
  w <- transformLM2World x_in y_in lm_pose (x_w, y_w, z_w) ;;
  let '(x_w, y_w, z_w) := w in
  transformWorld2Img x_w y_w z_w camera_pose camera_intrinsics out.

(** *** Vocabulary of the statements *)

(** The parameter vector [a] holds the pose [v]: every slot can be read
    and gives the value [v] assigns to it. *)
Definition holds_pose (a : list T) (v : POSE.t -> T) : Prop :=
  forall k, at_index a (POSE.to_int k) = Some (v k).

(** The parameter vector [a] holds the intrinsics [v] in the five slots
    f, u0, v0, alpha and beta; nothing is asked of the slot theta. *)
Definition holds_intrinsics (a : list T) (v : INTRINSICS.t -> T) : Prop :=
  forall k, k <> INTRINSICS.theta ->
            at_index a (INTRINSICS.to_int k) = Some (v k).

(** A pose given slot by slot. *)
Definition pose_of (tX tY tZ rX rY rZ : T) (k : POSE.t) : T :=
  match k with
  | POSE.X => tX | POSE.Y => tY | POSE.Z => tZ
  | POSE.Rx => rX | POSE.Ry => rY | POSE.Rz => rZ
  end.

(** Intrinsics given slot by slot. *)
Definition intrinsics_of (vf vu0 vv0 valpha vbeta vtheta : T)
    (k : INTRINSICS.t) : T :=
  match k with
  | INTRINSICS.f => vf | INTRINSICS.u0 => vu0 | INTRINSICS.v0 => vv0
  | INTRINSICS.alpha => valpha | INTRINSICS.beta => vbeta
  | INTRINSICS.theta => vtheta
  end.

(** The value of [p_w] at the end of [transformLM2World], as a function
    of the inputs: the landmark point with z = [T(0.)], rotated by the
    pose's rotation vector, then translated.  [transformLM2World_run]
    below shows that this is what the function writes. *)
Definition world_point (x y : T) (lp : POSE.t -> T) : T * T * T :=
  let '(a, b, c) :=
    AngleAxisRotatePoint (lp POSE.Rx, lp POSE.Ry, lp POSE.Rz)
                         (x, y, Tlit 0) in
  (a + lp POSE.X, b + lp POSE.Y, c + lp POSE.Z).

(** The camera-relative point: the value of [p_c] after the rotation in
    [transformWorld2Img], as a function of the inputs.
    [transformWorld2Img_run] below shows that the function goes on with
    this point. *)
Definition camera_relative (x y z : T) (cp : POSE.t -> T) : T * T * T :=
  AngleAxisRotatePoint (- cp POSE.Rx, - cp POSE.Ry, - cp POSE.Rz)
                       (x - cp POSE.X, y - cp POSE.Y, z - cp POSE.Z).

(** The diagnostic of the degenerate case, as it appears on [std::cout]. *)
Definition warning : string :=
  ("WARNING; Attempt to divide by 0!" ++ endl)%string.

End Transformations.

#[global] Arguments state T : clear implicits.
#[global] Arguments M T A : clear implicits.
#[global] Arguments cell T : clear implicits.

End stargazer.

(** ** The templates at the real numbers

    The instance the statements are tried on: [T] is the type of real
    numbers, with exact equality as [operator==]. *)
Module RealModel.
Import stargazer.

Definition Req_bool (a b : R) : bool :=
  if Req_dec_T a b then true else false.

#[export] Instance Scalar_R : Scalar R := {|
  Tlit := IZR;
  Tadd := Rplus;
  Tsub := Rminus;
  Tmul := Rmult;
  Tdiv := Rdiv;
  Tneg := Ropp;
  Teqb := Req_bool
|}.

(** Modelled from the spec: the rotation primitive comes from the ceres
    library and is not among the sources.  It rotates the point [p] by the
    angle [|w|] about the axis [w / |w|] (Rodrigues' formula); the zero
    vector is the identity rotation. *)
Definition rotate (w p : R * R * R) : R * R * R :=
  let '(w0, w1, w2) := w in
  let '(p0, p1, p2) := p in
  let theta2 := (w0 * w0 + w1 * w1 + w2 * w2)%R in
  if Req_dec_T theta2 0 then p
  else
    let theta := sqrt theta2 in
    let k0 := (w0 / theta)%R in
    let k1 := (w1 / theta)%R in
    let k2 := (w2 / theta)%R in
    let c := cos theta in
    let s := sin theta in
    let kp := ((k0 * p0 + k1 * p1 + k2 * p2) * (1 - c))%R in
    ((p0 * c + (k1 * p2 - k2 * p1) * s + k0 * kp)%R,
     (p1 * c + (k2 * p0 - k0 * p2) * s + k1 * kp)%R,
     (p2 * c + (k0 * p1 - k1 * p0) * s + k2 * kp)%R).

#[export] Instance Rotation_R : Rotation R := {|
  AngleAxisRotatePoint := rotate
|}.

(** The state before anything was printed or divided. *)
Definition start : state R := {| cout := EmptyString; divisions := [] |}.

(** A camera at (1, 2, 3) that is not rotated, and one turned by one
    radian about the z axis. *)
Definition camera_plain : list R := [1; 2; 3; 0; 0; 0]%R.
Definition camera_turned : list R := [1; 2; 3; 0; 0; 1]%R.

(** The pose at the origin that is not rotated. *)
Definition pose_origin : list R := [0; 0; 0; 0; 0; 0]%R.

(** Intrinsics f = 2, u0 = 1, v0 = 1, alpha = 1, beta = 3, and two values
    of theta. *)
Definition intrinsics_a : list R := [2; 1; 1; 1; 3; 0]%R.
Definition intrinsics_b : list R := [2; 1; 1; 1; 3; 9]%R.

(** Intrinsics f = 1, u0 = 0, v0 = 0, alpha = 1, beta = 1. *)
Definition intrinsics_unit : list R := [1; 0; 0; 1; 1; 0]%R.

(** A landmark at height 3 that is not rotated, and one turned by one
    radian about the z axis. *)
Definition landmark_plain : list R := [0; 0; 3; 0; 0; 0]%R.
Definition landmark_turned : list R := [0; 0; 3; 0; 0; 1]%R.

End RealModel.

(** ** Properties of the transformations *)

Module Properties.
Import stargazer.

Section Generic.

Context {T : Type} {ST : Scalar T} {RT : Rotation T}.
Local Open Scope scalar_scope.

(** *** Running the three functions *)

Lemma bind_deref {A : Type} (v : T) (k : T -> M T A) (s : state T) :
  bind (deref (Some v)) k s = k v s.
Proof. reflexivity. Qed.

Lemma bind_index {A : Type} (a : list T) (i : Z) (v : T)
    (k : T -> M T A) (s : state T) :
  at_index a i = Some v -> bind (index a i) k s = k v s.
Proof. intros E. unfold bind, index. now rewrite E. Qed.

Lemma append_assoc (a b c : string) :
  ((a ++ b) ++ c)%string = (a ++ (b ++ c))%string.
Proof.
  induction a as [|ch a IH]; simpl.
  - reflexivity.
  - now rewrite IH.
Qed.

Lemma cout_warning (s : string) :
  ((s ++ "WARNING; Attempt to divide by 0!") ++ endl)%string
  = (s ++ warning)%string.
Proof. unfold warning. now rewrite append_assoc. Qed.

(** One read of a pose slot, and one read of an intrinsics slot other
    than theta, from vectors known to hold them. *)
Ltac read_pose Hp :=
  repeat rewrite (bind_index _ _ _ _ _ (Hp _)).

Ltac read_intrinsics Hi :=
  repeat (erewrite bind_index by (apply Hi; discriminate)).

(** With a readable pose, [transformLM2World] returns the world point in
    its three outputs and leaves the state as it was. *)
Lemma transformLM2World_run (x y : T) (lm_pose : list T) (lp : POSE.t -> T)
    (out : cell T * cell T * cell T) (s : state T) :
  holds_pose lm_pose lp ->
  transformLM2World (Some x) (Some y) lm_pose out s
  = Some (let '(a, b, c) := world_point x y lp in (Some a, Some b, Some c), s).
Proof.
  intros Hp. unfold transformLM2World, world_point.
  destruct out as [[x_out y_out] z_out].
  rewrite !bind_deref. read_pose Hp.
  destruct (AngleAxisRotatePoint _ _) as [[a b] c].
  read_pose Hp. reflexivity.
Qed.

(** The prior content of the three outputs plays no part. *)
Lemma transformLM2World_out (x_in y_in : cell T) (lm_pose : list T)
    (out out' : cell T * cell T * cell T) (s : state T) :
  transformLM2World x_in y_in lm_pose out s
  = transformLM2World x_in y_in lm_pose out' s.
Proof.
  destruct out as [[? ?] ?], out' as [[? ?] ?]. reflexivity.
Qed.

(** With a readable camera pose and readable intrinsics,
    [transformWorld2Img] is decided by the camera-relative point. *)
Lemma transformWorld2Img_run (x y z : T) (camera_pose camera_intrinsics : list T)
    (cp : POSE.t -> T) (ci : INTRINSICS.t -> T)
    (out : cell T * cell T) (s : state T) :
  holds_pose camera_pose cp ->
  holds_intrinsics camera_intrinsics ci ->
  transformWorld2Img (Some x) (Some y) (Some z) camera_pose camera_intrinsics
                     out s
  = Some (let '(px, py, pz) := camera_relative x y z cp in
          let i0 := ci INTRINSICS.f * ci INTRINSICS.alpha * px
                    + Tlit 0 * py + ci INTRINSICS.u0 * pz in
          let q := ci INTRINSICS.f * ci INTRINSICS.beta * py in
          let i1 := Tlit 0 * px + q / Tlit 1 + ci INTRINSICS.v0 * pz in
          if pz == Tlit 0 then
            (out,
             {| cout := (cout s ++ warning)%string;
                divisions := divisions s ++ [(q, Tlit 1)] |})
          else
            ((Some (i0 / pz), Some (i1 / pz)),
             {| cout := cout s;
                divisions := divisions s
                             ++ [(q, Tlit 1); (i0, pz); (i1, pz); (pz, pz)] |})).
Proof.
  intros Hp Hi. unfold transformWorld2Img, camera_relative.
  destruct out as [x_out y_out].
  rewrite !bind_deref. read_pose Hp.
  destruct (AngleAxisRotatePoint _ _) as [[px py] pz].
  read_intrinsics Hi.
  unfold bind at 1. unfold divide at 1.
  read_intrinsics Hi.
  destruct (pz == Tlit 0).
  - unfold bind, print, ret. cbn [cout divisions].
    now rewrite cout_warning.
  - unfold bind, divide, ret. cbn [cout divisions].
    now rewrite <- !app_assoc.
Qed.

(** *** Laws of the numeric type

    The statements below that simplify an expression say which of these
    laws of [T] and of the rotation primitive they rely on. *)

Hypothesis Tadd_0_l : forall a : T, Tlit 0 + a = a.
Hypothesis Tadd_0_r : forall a : T, a + Tlit 0 = a.
Hypothesis Tsub_0_r : forall a : T, a - Tlit 0 = a.
Hypothesis Tmul_0_l : forall a : T, Tlit 0 * a = Tlit 0.
Hypothesis Tmul_0_r : forall a : T, a * Tlit 0 = Tlit 0.
Hypothesis Tdiv_1_r : forall a : T, a / Tlit 1 = a.
Hypothesis Tdiv_0_l :
  forall a : T, (a == Tlit 0) = false -> Tlit 0 / a = Tlit 0.
Hypothesis Tneg_0 : - Tlit 0 = Tlit 0.
Hypothesis rotate_0 :
  forall p : T * T * T,
    AngleAxisRotatePoint (Tlit 0, Tlit 0, Tlit 0) p = p.

(** *** The claims *)

(** C1. For a world point whose camera-relative point is (px, py, pz) with
    pz nonzero, [transformWorld2Img] returns
    x_out = (f*alpha*px + u0*pz)/pz and y_out = (f*beta*py + v0*pz)/pz;
    the quotient pz/pz is formed as well (it is the last division) and is
    not among the outputs.  The code has the two terms [T(0) * _] and the
    division by [T(1)] in its sums; the statement holds for a numeric type
    in which 0 * a = 0, a + 0 = a, 0 + a = a and a / 1 = a. *)
Theorem C1_transformWorld2Img_projection
    (x y z : T) (camera_pose camera_intrinsics : list T)
    (cp : POSE.t -> T) (ci : INTRINSICS.t -> T)
    (out : cell T * cell T) (s : state T) (px py pz : T) :
  holds_pose camera_pose cp ->
  holds_intrinsics camera_intrinsics ci ->
  camera_relative x y z cp = (px, py, pz) ->
  (pz == Tlit 0) = false ->
  let i0 := ci INTRINSICS.f * ci INTRINSICS.alpha * px
            + ci INTRINSICS.u0 * pz in
  let i1 := ci INTRINSICS.f * ci INTRINSICS.beta * py
            + ci INTRINSICS.v0 * pz in
  transformWorld2Img (Some x) (Some y) (Some z) camera_pose camera_intrinsics
                     out s
  = Some ((Some (i0 / pz), Some (i1 / pz)),
          {| cout := cout s;
             divisions :=
               divisions s
               ++ [(ci INTRINSICS.f * ci INTRINSICS.beta * py, Tlit 1);
                   (i0, pz); (i1, pz); (pz, pz)] |}).
Proof.
  intros Hp Hi Hc Hz i0 i1.
  rewrite (transformWorld2Img_run _ _ _ _ _ _ _ _ _ Hp Hi), Hc.
  cbv zeta. rewrite Hz.
  rewrite !Tmul_0_l, Tadd_0_r, Tadd_0_l, Tdiv_1_r.
  reflexivity.
Qed.

(** C2. When the camera-relative depth is exactly zero by [operator==]
    (an equality test, no tolerance), [transformWorld2Img] prints the
    diagnostic and returns at once, with both outputs as they were at the
    call.  The perspective division is not performed: the function does
    not reach the three divisions by the depth that follow the test, and
    its record of quotients has gained only the one by [T(1)] that the
    second projected coordinate forms before the test. *)
Theorem C2_transformWorld2Img_degenerate
    (x y z : T) (camera_pose camera_intrinsics : list T)
    (cp : POSE.t -> T) (ci : INTRINSICS.t -> T)
    (out : cell T * cell T) (s : state T) (px py pz : T) :
  holds_pose camera_pose cp ->
  holds_intrinsics camera_intrinsics ci ->
  camera_relative x y z cp = (px, py, pz) ->
  (pz == Tlit 0) = true ->
  transformWorld2Img (Some x) (Some y) (Some z) camera_pose camera_intrinsics
                     out s
  = Some (out,
          {| cout := (cout s ++ warning)%string;
             divisions :=
               divisions s
               ++ [(ci INTRINSICS.f * ci INTRINSICS.beta * py, Tlit 1)] |}).
Proof.
  intros Hp Hi Hc Hz.
  rewrite (transformWorld2Img_run _ _ _ _ _ _ _ _ _ Hp Hi), Hc.
  cbv zeta. now rewrite Hz.
Qed.

(** C3. [transformLM2Img] gives exactly what a caller gets who calls
    [transformLM2World] (on world-point variables of any prior content
    [w0]) and then [transformWorld2Img] on the world point it wrote: the
    same outputs and the same state, whether or not the depth is zero. *)
Theorem C3_transformLM2Img_composition
    (x_in y_in : cell T) (lm_pose camera_pose camera_intrinsics : list T)
    (w0 : cell T * cell T * cell T) (out : cell T * cell T)
    (s s1 : state T) (x_w y_w z_w : cell T) :
  transformLM2World x_in y_in lm_pose w0 s = Some ((x_w, y_w, z_w), s1) ->
  transformLM2Img x_in y_in lm_pose camera_pose camera_intrinsics out s
  = transformWorld2Img x_w y_w z_w camera_pose camera_intrinsics out s1.
Proof.
  intros Hw. unfold transformLM2Img, bind.
  rewrite (transformLM2World_out _ _ _ _ w0), Hw.
  reflexivity.
Qed.

(** C4. [transformWorld2Img] works on the point obtained by subtracting
    the slots X, Y, Z of the camera pose from the world point, component by
    component, and then rotating the difference by the negated rotation
    vector (-Rx, -Ry, -Rz); the rotated point takes the place of the
    difference, and the projection and the depth test read it. *)
Theorem C4_transformWorld2Img_camera_point
    (x y z : T) (camera_pose camera_intrinsics : list T)
    (cp : POSE.t -> T) (ci : INTRINSICS.t -> T)
    (out : cell T * cell T) (s : state T) :
  holds_pose camera_pose cp ->
  holds_intrinsics camera_intrinsics ci ->
  transformWorld2Img (Some x) (Some y) (Some z) camera_pose camera_intrinsics
                     out s
  = Some (let '(p_c0, p_c1, p_c2) :=
            AngleAxisRotatePoint
              (- cp POSE.Rx, - cp POSE.Ry, - cp POSE.Rz)
              (x - cp POSE.X, y - cp POSE.Y, z - cp POSE.Z) in
          let i0 := ci INTRINSICS.f * ci INTRINSICS.alpha * p_c0
                    + Tlit 0 * p_c1 + ci INTRINSICS.u0 * p_c2 in
          let q := ci INTRINSICS.f * ci INTRINSICS.beta * p_c1 in
          let i1 := Tlit 0 * p_c0 + q / Tlit 1 + ci INTRINSICS.v0 * p_c2 in
          if p_c2 == Tlit 0 then
            (out,
             {| cout := (cout s ++ warning)%string;
                divisions := divisions s ++ [(q, Tlit 1)] |})
          else
            ((Some (i0 / p_c2), Some (i1 / p_c2)),
             {| cout := cout s;
                divisions :=
                  divisions s
                  ++ [(q, Tlit 1); (i0, p_c2); (i1, p_c2); (p_c2, p_c2)] |})).
Proof.
  intros Hp Hi.
  now rewrite (transformWorld2Img_run _ _ _ _ _ _ _ _ _ Hp Hi).
Qed.

(** C5. For a landmark pose with zero rotation vector and translation
    (tx, ty, tz), [transformLM2World] returns (x+tx, y+ty, tz); when the
    translation is zero as well it returns (x, y, 0).  This holds for a
    rotation primitive that leaves every point in place at the zero
    vector, and a numeric type in which 0 + a = a and a + 0 = a. *)
Theorem C5_transformLM2World_zero_rotation
    (x y tx ty tz : T) (lm_pose : list T)
    (out : cell T * cell T * cell T) (s : state T) :
  holds_pose lm_pose (pose_of tx ty tz (Tlit 0) (Tlit 0) (Tlit 0)) ->
  transformLM2World (Some x) (Some y) lm_pose out s
  = Some ((Some (x + tx), Some (y + ty), Some tz), s)
  /\ (tx = Tlit 0 -> ty = Tlit 0 -> tz = Tlit 0 ->
      transformLM2World (Some x) (Some y) lm_pose out s
      = Some ((Some x, Some y, Some (Tlit 0)), s)).
Proof.
  intros Hp.
  rewrite (transformLM2World_run _ _ _ _ _ _ Hp).
  unfold world_point. cbn [pose_of]. rewrite rotate_0, Tadd_0_l.
  split; [reflexivity|].
  intros -> -> ->. now rewrite !Tadd_0_r.
Qed.

(** C6. The slot theta of the intrinsics is never read: two intrinsics
    vectors that agree in the slots f, u0, v0, alpha and beta give the same
    outcome of [transformWorld2Img], and of [transformLM2Img], on every
    input: the same outputs, the same state, and the same inputs without
    defined behaviour. *)
Theorem C6_theta_never_read
    (intrinsics1 intrinsics2 : list T) :
  (forall k, k <> INTRINSICS.theta ->
             at_index intrinsics1 (INTRINSICS.to_int k)
             = at_index intrinsics2 (INTRINSICS.to_int k)) ->
  (forall (x_in y_in z_in : cell T) (camera_pose : list T)
          (out : cell T * cell T) (s : state T),
      transformWorld2Img x_in y_in z_in camera_pose intrinsics1 out s
      = transformWorld2Img x_in y_in z_in camera_pose intrinsics2 out s)
  /\ (forall (x_in y_in : cell T) (lm_pose camera_pose : list T)
             (out : cell T * cell T) (s : state T),
         transformLM2Img x_in y_in lm_pose camera_pose intrinsics1 out s
         = transformLM2Img x_in y_in lm_pose camera_pose intrinsics2 out s).
Proof.
  intros Hagree.
  assert (HW : forall x_in y_in z_in camera_pose out s,
             transformWorld2Img x_in y_in z_in camera_pose intrinsics1 out s
             = transformWorld2Img x_in y_in z_in camera_pose intrinsics2 out s).
  { intros. unfold transformWorld2Img, index.
    rewrite (Hagree INTRINSICS.f) by discriminate.
    rewrite (Hagree INTRINSICS.alpha) by discriminate.
    rewrite (Hagree INTRINSICS.beta) by discriminate.
    rewrite (Hagree INTRINSICS.u0) by discriminate.
    rewrite (Hagree INTRINSICS.v0) by discriminate.
    reflexivity. }
  split; [exact HW|].
  intros. unfold transformLM2Img, bind.
  destruct (transformLM2World _ _ _ _ _) as [[[[x_w y_w] z_w] s1]|];
    [apply HW | reflexivity].
Qed.

(** C7. When the depth test inside [transformWorld2Img] finds zero,
    [transformLM2Img] returns with its two outputs as they were at the
    call and with the one diagnostic on [std::cout], and this is, outputs
    and state, what [transformWorld2Img] returns on the world point:
    [transformLM2Img] adds nothing of its own. *)
Theorem C7_transformLM2Img_degenerate
    (x y : T) (lm_pose camera_pose camera_intrinsics : list T)
    (lp cp : POSE.t -> T) (ci : INTRINSICS.t -> T)
    (out : cell T * cell T) (s : state T) (x_w y_w z_w px py pz : T) :
  holds_pose lm_pose lp ->
  holds_pose camera_pose cp ->
  holds_intrinsics camera_intrinsics ci ->
  world_point x y lp = (x_w, y_w, z_w) ->
  camera_relative x_w y_w z_w cp = (px, py, pz) ->
  (pz == Tlit 0) = true ->
  transformLM2Img (Some x) (Some y) lm_pose camera_pose camera_intrinsics
                  out s
  = Some (out,
          {| cout := (cout s ++ warning)%string;
             divisions :=
               divisions s
               ++ [(ci INTRINSICS.f * ci INTRINSICS.beta * py, Tlit 1)] |})
  /\ transformLM2Img (Some x) (Some y) lm_pose camera_pose camera_intrinsics
                     out s
     = transformWorld2Img (Some x_w) (Some y_w) (Some z_w)
                          camera_pose camera_intrinsics out s.
Proof.
  intros Hl Hp Hi Hw Hc Hz.
  assert (E : transformLM2Img (Some x) (Some y) lm_pose camera_pose
                              camera_intrinsics out s
              = transformWorld2Img (Some x_w) (Some y_w) (Some z_w)
                                   camera_pose camera_intrinsics out s).
  { unfold transformLM2Img, bind.
    rewrite (transformLM2World_run _ _ _ _ _ _ Hl), Hw. reflexivity. }
  split; [|exact E].
  rewrite E, (transformWorld2Img_run _ _ _ _ _ _ _ _ _ Hp Hi), Hc.
  cbv zeta. now rewrite Hz.
Qed.

(** C8. With a camera pose of zero rotation vector and zero translation
    and the intrinsics f = 1, alpha = 1, beta = 1, u0 = 0, v0 = 0 (theta
    anything), [transformWorld2Img] maps the world point (0, 0, 5) to the
    image point (0, 0), and prints nothing.  This holds for a rotation
    primitive that leaves every point in place at the zero vector, and a
    numeric type in which 5 is not 0 and the laws of zero and one above
    hold. *)
Theorem C8_transformWorld2Img_on_axis
    (camera_pose camera_intrinsics : list T) (vtheta : T)
    (out : cell T * cell T) (s : state T) :
  holds_pose camera_pose
    (pose_of (Tlit 0) (Tlit 0) (Tlit 0) (Tlit 0) (Tlit 0) (Tlit 0)) ->
  holds_intrinsics camera_intrinsics
    (intrinsics_of (Tlit 1) (Tlit 0) (Tlit 0) (Tlit 1) (Tlit 1) vtheta) ->
  (Tlit 5 == Tlit 0) = false ->
  exists s' : state T,
    transformWorld2Img (Some (Tlit 0)) (Some (Tlit 0)) (Some (Tlit 5))
                       camera_pose camera_intrinsics out s
    = Some ((Some (Tlit 0), Some (Tlit 0)), s')
    /\ cout s' = cout s.
Proof.
  intros Hp Hi H5.
  rewrite (transformWorld2Img_run _ _ _ _ _ _ _ _ _ Hp Hi).
  unfold camera_relative. cbn [pose_of intrinsics_of].
  rewrite Tneg_0, !Tsub_0_r, rotate_0. cbv zeta. rewrite H5.
  rewrite !Tmul_0_r, !Tmul_0_l, Tdiv_1_r, !Tadd_0_l, (Tdiv_0_l _ H5).
  eexists. split; reflexivity.
Qed.

(** C9. [transformLM2World] has one path: for every input point and every
    landmark pose it returns, with all three outputs written (whatever
    they held before) and with nothing printed and nothing divided. *)
Theorem C9_transformLM2World_total
    (x y : T) (lm_pose : list T) (lp : POSE.t -> T)
    (out : cell T * cell T * cell T) (s : state T) :
  holds_pose lm_pose lp ->
  exists a b c : T,
    world_point x y lp = (a, b, c)
    /\ transformLM2World (Some x) (Some y) lm_pose out s
       = Some ((Some a, Some b, Some c), s).
Proof.
  intros Hp.
  rewrite (transformLM2World_run _ _ _ _ _ _ Hp).
  destruct (world_point x y lp) as [[a b] c].
  exists a, b, c. split; reflexivity.
Qed.

(** C10. Only a depth equal to zero is set apart: for every
    camera-relative depth pz that [operator==] does not find equal to
    [T(0)], negative ones included, [transformWorld2Img] divides both
    projected coordinates by pz, writes both outputs whatever they held,
    and prints nothing. *)
Theorem C10_transformWorld2Img_nonzero_depth
    (x y z : T) (camera_pose camera_intrinsics : list T)
    (cp : POSE.t -> T) (ci : INTRINSICS.t -> T)
    (out : cell T * cell T) (s : state T) (px py pz : T) :
  holds_pose camera_pose cp ->
  holds_intrinsics camera_intrinsics ci ->
  camera_relative x y z cp = (px, py, pz) ->
  (pz == Tlit 0) = false ->
  exists (i0 i1 : T) (s' : state T),
    transformWorld2Img (Some x) (Some y) (Some z) camera_pose
                       camera_intrinsics out s
    = Some ((Some (i0 / pz), Some (i1 / pz)), s')
    /\ cout s' = cout s
    /\ In (i0, pz) (divisions s')
    /\ In (i1, pz) (divisions s').
Proof.
  intros Hp Hi Hc Hz.
  rewrite (transformWorld2Img_run _ _ _ _ _ _ _ _ _ Hp Hi), Hc.
  cbv zeta. rewrite Hz.
  do 3 eexists. split; [reflexivity|]. cbn [cout divisions].
  split; [reflexivity|].
  split; apply in_or_app; right; simpl; auto.
Qed.

End Generic.

(** *** The real numbers obey the laws *)

Section Reals.
Import RealModel.
Local Open Scope R_scope.

Lemma Req_bool_true (a b : R) : a = b -> Req_bool a b = true.
Proof. intros E. unfold Req_bool. now destruct (Req_dec_T a b). Qed.

Lemma Req_bool_false (a b : R) : a <> b -> Req_bool a b = false.
Proof. intros E. unfold Req_bool. now destruct (Req_dec_T a b). Qed.

Lemma R_add_0_l (a : R) : Tadd (Tlit 0) a = a.
Proof. simpl. lra. Qed.

Lemma R_add_0_r (a : R) : Tadd a (Tlit 0) = a.
Proof. simpl. lra. Qed.

Lemma R_sub_0_r (a : R) : Tsub a (Tlit 0) = a.
Proof. simpl. lra. Qed.

Lemma R_mul_0_l (a : R) : Tmul (Tlit 0) a = Tlit 0.
Proof. simpl. lra. Qed.

Lemma R_mul_0_r (a : R) : Tmul a (Tlit 0) = Tlit 0.
Proof. simpl. lra. Qed.

Lemma R_div_1_r (a : R) : Tdiv a (Tlit 1) = a.
Proof. simpl. lra. Qed.

Lemma R_div_0_l (a : R) :
  Teqb a (Tlit 0) = false -> Tdiv (Tlit 0) a = Tlit 0.
Proof. intros _. simpl. unfold Rdiv. apply Rmult_0_l. Qed.

Lemma R_neg_0 : Tneg (Tlit 0) = Tlit 0 :> R.
Proof. simpl. lra. Qed.

Lemma rotate_zero (p : R * R * R) : rotate (0, 0, 0) p = p.
Proof.
  destruct p as [[p0 p1] p2]. unfold rotate.
  destruct (Req_dec_T _ 0) as [_|N]; [reflexivity|].
  exfalso. apply N. lra.
Qed.

Lemma R_rotate_0 (p : R * R * R) :
  AngleAxisRotatePoint (Tlit 0, Tlit 0, Tlit 0) p = p.
Proof. apply rotate_zero. Qed.

Lemma rotate_neg_zero (p : R * R * R) : rotate (- 0, - 0, - 0) p = p.
Proof. rewrite Ropp_0. apply rotate_zero. Qed.

(** The sample vectors hold what their comments say. *)

Lemma holds_list_pose (a b c d e g : R) :
  holds_pose [a; b; c; d; e; g] (pose_of a b c d e g).
Proof. intros []; reflexivity. Qed.

Lemma holds_list_intrinsics (a b c d e g : R) :
  holds_intrinsics [a; b; c; d; e; g] (intrinsics_of a b c d e g).
Proof. intros [] _; reflexivity. Qed.

(** C1, tried on the world point (3, 5, 7) seen from the camera at
    (1, 2, 3): the camera-relative point is (2, 3, 4). *)
Lemma C1_witness :
  Req_bool (7 - 3) 0 = false
  /\ transformWorld2Img (Some 3) (Some 5) (Some 7) camera_plain intrinsics_a
                        (None, None) start
     = Some ((Some ((2 * 1 * (3 - 1) + 1 * (7 - 3)) / (7 - 3)),
              Some ((2 * 3 * (5 - 2) + 1 * (7 - 3)) / (7 - 3))),
             {| cout := EmptyString;
                divisions := [(2 * 3 * (5 - 2), 1);
                              (2 * 1 * (3 - 1) + 1 * (7 - 3), 7 - 3);
                              (2 * 3 * (5 - 2) + 1 * (7 - 3), 7 - 3);
                              (7 - 3, 7 - 3)] |}).
Proof.
  assert (Hz : Req_bool (7 - 3) 0 = false) by (apply Req_bool_false; lra).
  split; [exact Hz|].
  exact (C1_transformWorld2Img_projection
           R_add_0_l R_add_0_r R_mul_0_l R_div_1_r
           3 5 7 camera_plain intrinsics_a _ _ (None, None) start
           (3 - 1) (5 - 2) (7 - 3)
           (holds_list_pose 1 2 3 0 0 0) (holds_list_intrinsics 2 1 1 1 3 0)
           (rotate_neg_zero _) Hz).
Defined.

(** C2, tried on the world point (3, 5, 3) seen from the camera at
    (1, 2, 3): the depth is zero, and the first output held 8. *)
Lemma C2_witness :
  Req_bool (3 - 3) 0 = true
  /\ transformWorld2Img (Some 3) (Some 5) (Some 3) camera_plain intrinsics_a
                        (Some 8, None) start
     = Some ((Some 8, None),
             {| cout := warning; divisions := [(2 * 3 * (5 - 2), 1)] |}).
Proof.
  assert (Hz : Req_bool (3 - 3) 0 = true) by (apply Req_bool_true; lra).
  split; [exact Hz|].
  exact (C2_transformWorld2Img_degenerate
           3 5 3 camera_plain intrinsics_a _ _ (Some 8, None) start
           (3 - 1) (5 - 2) (3 - 3)
           (holds_list_pose 1 2 3 0 0 0) (holds_list_intrinsics 2 1 1 1 3 0)
           (rotate_neg_zero _) Hz).
Defined.

(** The world point of (3, 5) on the landmark at height 3. *)
Lemma landmark_plain_world (out : cell R * cell R * cell R) (s : state R) :
  transformLM2World (Some 3) (Some 5) landmark_plain out s
  = Some ((Some (3 + 0), Some (5 + 0), Some (0 + 3)), s).
Proof.
  unfold landmark_plain.
  rewrite (transformLM2World_run _ _ _ _ _ _ (holds_list_pose 0 0 3 0 0 0)).
  unfold world_point. cbn [pose_of AngleAxisRotatePoint Rotation_R Tlit Scalar_R].
  now rewrite rotate_zero.
Qed.

(** C3, tried on the point (3, 5) of the landmark at height 3, seen from
    the origin: the depth is 3. *)
Lemma C3_witness :
  transformLM2Img (Some 3) (Some 5) landmark_plain pose_origin intrinsics_a
                  (None, None) start
  = transformWorld2Img (Some (3 + 0)) (Some (5 + 0)) (Some (0 + 3))
                       pose_origin intrinsics_a (None, None) start.
Proof.
  exact (C3_transformLM2Img_composition
           (Some 3) (Some 5) landmark_plain pose_origin intrinsics_a
           (Some 1, None, Some 2) (None, None) start start _ _ _
           (landmark_plain_world _ _)).
Defined.

(** C4, tried on the world point (3, 5, 7) seen from the camera at
    (1, 2, 3) turned by one radian about the z axis. *)
Lemma C4_witness :
  transformWorld2Img (Some 3) (Some 5) (Some 7) camera_turned intrinsics_a
                     (None, None) start
  = Some (let '(p_c0, p_c1, p_c2) :=
            rotate (- 0, - 0, - 1) (3 - 1, 5 - 2, 7 - 3) in
          let i0 := 2 * 1 * p_c0 + 0 * p_c1 + 1 * p_c2 in
          let q := 2 * 3 * p_c1 in
          let i1 := 0 * p_c0 + q / 1 + 1 * p_c2 in
          if Req_bool p_c2 0 then
            ((None, None), {| cout := warning; divisions := [(q, 1)] |})
          else
            ((Some (i0 / p_c2), Some (i1 / p_c2)),
             {| cout := EmptyString;
                divisions := [(q, 1); (i0, p_c2); (i1, p_c2);
                              (p_c2, p_c2)] |})).
Proof.
  exact (C4_transformWorld2Img_camera_point
           3 5 7 camera_turned intrinsics_a _ _ (None, None) start
           (holds_list_pose 1 2 3 0 0 1) (holds_list_intrinsics 2 1 1 1 3 0)).
Defined.

(** C5, tried on the point (3, 5): on a landmark translated by (1, 2, 3),
    and on a landmark at the origin. *)
Lemma C5_witness :
  transformLM2World (Some 3) (Some 5) camera_plain (None, None, None) start
  = Some ((Some (3 + 1), Some (5 + 2), Some 3), start)
  /\ transformLM2World (Some 3) (Some 5) pose_origin (None, None, None) start
     = Some ((Some 3, Some 5, Some 0), start).
Proof.
  split.
  - exact (proj1 (C5_transformLM2World_zero_rotation
                    R_add_0_l R_add_0_r R_rotate_0
                    3 5 1 2 3 camera_plain (None, None, None) start
                    (holds_list_pose 1 2 3 0 0 0))).
  - exact (proj2 (C5_transformLM2World_zero_rotation
                    R_add_0_l R_add_0_r R_rotate_0
                    3 5 0 0 0 pose_origin (None, None, None) start
                    (holds_list_pose 0 0 0 0 0 0))
                 eq_refl eq_refl eq_refl).
Defined.

Lemma intrinsics_a_b (k : INTRINSICS.t) :
  k <> INTRINSICS.theta ->
  at_index intrinsics_a (INTRINSICS.to_int k)
  = at_index intrinsics_b (INTRINSICS.to_int k).
Proof. destruct k; intros N; try reflexivity. now elim N. Qed.

(** C6, tried on two intrinsics vectors with theta = 0 and theta = 9. *)
Lemma C6_witness :
  at_index intrinsics_a (INTRINSICS.to_int INTRINSICS.theta) = Some 0
  /\ at_index intrinsics_b (INTRINSICS.to_int INTRINSICS.theta) = Some 9
  /\ transformWorld2Img (Some 3) (Some 5) (Some 7) camera_turned intrinsics_a
                        (None, None) start
     = transformWorld2Img (Some 3) (Some 5) (Some 7) camera_turned intrinsics_b
                          (None, None) start
  /\ transformLM2Img (Some 3) (Some 5) landmark_turned camera_turned
                     intrinsics_a (None, None) start
     = transformLM2Img (Some 3) (Some 5) landmark_turned camera_turned
                       intrinsics_b (None, None) start.
Proof.
  split; [reflexivity|]. split; [reflexivity|]. split.
  - exact (proj1 (C6_theta_never_read intrinsics_a intrinsics_b intrinsics_a_b)
                 (Some 3) (Some 5) (Some 7) camera_turned (None, None) start).
  - exact (proj2 (C6_theta_never_read intrinsics_a intrinsics_b intrinsics_a_b)
                 (Some 3) (Some 5) landmark_turned camera_turned
                 (None, None) start).
Defined.

(** C7, tried on the point (3, 5) of the landmark at height 3 seen from
    the camera at (1, 2, 3): the world point is at the camera's height. *)
Lemma C7_witness :
  Req_bool (0 + 3 - 3) 0 = true
  /\ transformLM2Img (Some 3) (Some 5) landmark_plain camera_plain
                     intrinsics_a (Some 8, None) start
     = Some ((Some 8, None),
             {| cout := warning;
                divisions := [(2 * 3 * (5 + 0 - 2), 1)] |})
  /\ transformLM2Img (Some 3) (Some 5) landmark_plain camera_plain
                     intrinsics_a (Some 8, None) start
     = transformWorld2Img (Some (3 + 0)) (Some (5 + 0)) (Some (0 + 3))
                          camera_plain intrinsics_a (Some 8, None) start.
Proof.
  assert (Hz : Req_bool (0 + 3 - 3) 0 = true) by (apply Req_bool_true; lra).
  split; [exact Hz|].
  refine (C7_transformLM2Img_degenerate
            3 5 landmark_plain camera_plain intrinsics_a _ _ _
            (Some 8, None) start (3 + 0) (5 + 0) (0 + 3)
            (3 + 0 - 1) (5 + 0 - 2) (0 + 3 - 3)
            (holds_list_pose 0 0 3 0 0 0) (holds_list_pose 1 2 3 0 0 0)
            (holds_list_intrinsics 2 1 1 1 3 0) _ (rotate_neg_zero _) Hz).
  unfold world_point. cbn [pose_of AngleAxisRotatePoint Rotation_R Tlit Scalar_R].
  now rewrite rotate_zero.
Defined.

Lemma five_nonzero : Req_bool 5 0 = false.
Proof. apply Req_bool_false. lra. Qed.

(** C8 at the real numbers. *)
Lemma C8_witness :
  exists s' : state R,
    transformWorld2Img (Some 0) (Some 0) (Some 5) pose_origin intrinsics_unit
                       (None, None) start
    = Some ((Some 0, Some 0), s')
    /\ cout s' = EmptyString.
Proof.
  exact (C8_transformWorld2Img_on_axis
           R_add_0_l R_sub_0_r R_mul_0_l R_mul_0_r R_div_1_r R_div_0_l
           R_neg_0 R_rotate_0
           pose_origin intrinsics_unit 0 (None, None) start
           (holds_list_pose 0 0 0 0 0 0) (holds_list_intrinsics 1 0 0 1 1 0)
           five_nonzero).
Defined.

(** C9, tried on the point (3, 5) of the landmark at height 3 turned by
    one radian about the z axis, with outputs of mixed prior content. *)
Lemma C9_witness :
  exists a b c : R,
    world_point 3 5 (pose_of 0 0 3 0 0 1) = (a, b, c)
    /\ transformLM2World (Some 3) (Some 5) landmark_turned
                         (Some 1, None, Some 2) start
       = Some ((Some a, Some b, Some c), start).
Proof.
  exact (C9_transformLM2World_total
           3 5 landmark_turned _ (Some 1, None, Some 2) start
           (holds_list_pose 0 0 3 0 0 1)).
Defined.

(** C10, tried on the world point (3, 5, 1) seen from the camera at
    (1, 2, 3): the depth is -2, behind the camera. *)
Lemma C10_witness :
  1 - 3 < 0
  /\ exists (i0 i1 : R) (s' : state R),
       transformWorld2Img (Some 3) (Some 5) (Some 1) camera_plain
                          intrinsics_a (None, None) start
       = Some ((Some (i0 / (1 - 3)), Some (i1 / (1 - 3))), s')
       /\ cout s' = EmptyString
       /\ In (i0, 1 - 3) (divisions s')
       /\ In (i1, 1 - 3) (divisions s').
Proof.
  split; [lra|].
  refine (C10_transformWorld2Img_nonzero_depth
            3 5 1 camera_plain intrinsics_a _ _ (None, None) start
            (3 - 1) (5 - 2) (1 - 3)
            (holds_list_pose 1 2 3 0 0 0) (holds_list_intrinsics 2 1 1 1 3 0)
            (rotate_neg_zero _) _).
  apply Req_bool_false. change (1 - 3 <> 0). lra.
Defined.

End Reals.

(** ** Further properties of the three functions *)

Section Outcomes.

Context {T : Type} {ST : Scalar T} {RT : Rotation T}.
Local Open Scope scalar_scope.

(** A call of [transformLM2World] that returns has read both inputs and
    all six slots of the pose. *)
Lemma transformLM2World_defined (x_in y_in : cell T) (lm_pose : list T)
    (out : cell T * cell T * cell T) (s : state T)
    (r : cell T * cell T * cell T * state T) :
  transformLM2World x_in y_in lm_pose out s = Some r ->
  exists (x y : T) (lp : POSE.t -> T),
    x_in = Some x /\ y_in = Some y /\ holds_pose lm_pose lp.
Proof.
  unfold transformLM2World, bind, deref, index.
  destruct out as [[x_out y_out] z_out].
  destruct x_in as [x|]; [|discriminate].
  destruct y_in as [y|]; [|discriminate].
  destruct (at_index lm_pose (POSE.to_int POSE.Rx)) as [rx|] eqn:ERx;
    [|discriminate].
  destruct (at_index lm_pose (POSE.to_int POSE.Ry)) as [ry|] eqn:ERy;
    [|discriminate].
  destruct (at_index lm_pose (POSE.to_int POSE.Rz)) as [rz|] eqn:ERz;
    [|discriminate].
  destruct (AngleAxisRotatePoint _ _) as [[a b] c].
  destruct (at_index lm_pose (POSE.to_int POSE.X)) as [tx|] eqn:EX;
    [|discriminate].
  destruct (at_index lm_pose (POSE.to_int POSE.Y)) as [ty|] eqn:EY;
    [|discriminate].
  destruct (at_index lm_pose (POSE.to_int POSE.Z)) as [tz|] eqn:EZ;
    [|discriminate].
  intros _. exists x, y, (pose_of tx ty tz rx ry rz).
  repeat split. intros []; assumption.
Qed.

(** A call of [transformWorld2Img] that returns has read its three inputs,
    all six slots of the camera pose and the five slots f, alpha, u0, beta
    and v0 of the intrinsics. *)
Lemma transformWorld2Img_defined (x_in y_in z_in : cell T)
    (camera_pose camera_intrinsics : list T) (out : cell T * cell T)
    (s : state T) (r : cell T * cell T * state T) :
  transformWorld2Img x_in y_in z_in camera_pose camera_intrinsics out s
  = Some r ->
  exists (x y z : T) (cp : POSE.t -> T) (ci : INTRINSICS.t -> T),
    x_in = Some x /\ y_in = Some y /\ z_in = Some z
    /\ holds_pose camera_pose cp
    /\ holds_intrinsics camera_intrinsics ci.
Proof.
  unfold transformWorld2Img, bind, deref, index, divide.
  destruct out as [x_out y_out].
  destruct x_in as [x|]; [|discriminate].
  destruct y_in as [y|]; [|discriminate].
  destruct z_in as [z|]; [|discriminate].
  destruct (at_index camera_pose (POSE.to_int POSE.X)) as [tx|] eqn:EX;
    [|discriminate].
  destruct (at_index camera_pose (POSE.to_int POSE.Y)) as [ty|] eqn:EY;
    [|discriminate].
  destruct (at_index camera_pose (POSE.to_int POSE.Z)) as [tz|] eqn:EZ;
    [|discriminate].
  destruct (at_index camera_pose (POSE.to_int POSE.Rx)) as [rx|] eqn:ERx;
    [|discriminate].
  destruct (at_index camera_pose (POSE.to_int POSE.Ry)) as [ry|] eqn:ERy;
    [|discriminate].
  destruct (at_index camera_pose (POSE.to_int POSE.Rz)) as [rz|] eqn:ERz;
    [|discriminate].
  destruct (AngleAxisRotatePoint _ _) as [[px py] pz].
  destruct (at_index camera_intrinsics (INTRINSICS.to_int INTRINSICS.f))
    as [vf|] eqn:Ef; [|discriminate].
  destruct (at_index camera_intrinsics (INTRINSICS.to_int INTRINSICS.alpha))
    as [va|] eqn:Ea; [|discriminate].
  destruct (at_index camera_intrinsics (INTRINSICS.to_int INTRINSICS.u0))
    as [vu|] eqn:Eu; [|discriminate].
  destruct (at_index camera_intrinsics (INTRINSICS.to_int INTRINSICS.beta))
    as [vb|] eqn:Eb; [|discriminate].
  destruct (at_index camera_intrinsics (INTRINSICS.to_int INTRINSICS.v0))
    as [vv|] eqn:Ev; [|discriminate].
  intros _.
  exists x, y, z, (pose_of tx ty tz rx ry rz),
         (intrinsics_of vf vu vv va vb (Tlit 0)).
  repeat split.
  - intros []; assumption.
  - intros [] N; try assumption. now elim N.
Qed.

(** The two ways [transformWorld2Img] returns. *)
Lemma transformWorld2Img_outcome (x_in y_in z_in : cell T)
    (camera_pose camera_intrinsics : list T) (out out' : cell T * cell T)
    (s s' : state T) :
  transformWorld2Img x_in y_in z_in camera_pose camera_intrinsics out s
  = Some (out', s') ->
  (exists a b : T, out' = (Some a, Some b) /\ cout s' = cout s)
  \/ (out' = out /\ cout s' = (cout s ++ warning)%string).
Proof.
  intros H.
  destruct (transformWorld2Img_defined _ _ _ _ _ _ _ _ H)
    as (x & y & z & cp & ci & -> & -> & -> & Hp & Hi).
  rewrite (transformWorld2Img_run _ _ _ _ _ _ _ _ _ Hp Hi) in H.
  destruct (camera_relative x y z cp) as [[px py] pz].
  cbv zeta in H.
  destruct (pz == Tlit 0); injection H as <- <-.
  - right. split; reflexivity.
  - left. do 2 eexists. split; reflexivity.
Qed.

(** X1. [transformWorld2Img] never writes one output without the other,
    and never prints when it writes: whenever it returns, on any inputs,
    either both outputs are assigned and [std::cout] is as it was, or both
    outputs are as at the call and [std::cout] has grown by exactly the
    warning.  What [std::cout] held before is kept in both cases. *)
Theorem X1_transformWorld2Img_all_or_nothing (x_in y_in z_in : cell T)
    (camera_pose camera_intrinsics : list T) (out out' : cell T * cell T)
    (s s' : state T) :
  transformWorld2Img x_in y_in z_in camera_pose camera_intrinsics out s
  = Some (out', s') ->
  (exists a b : T, out' = (Some a, Some b) /\ cout s' = cout s)
  \/ (out' = out /\ cout s' = (cout s ++ warning)%string).
Proof.
  intros H.
  destruct (transformWorld2Img_defined _ _ _ _ _ _ _ _ H)
    as (x & y & z & cp & ci & -> & -> & -> & Hp & Hi).
  rewrite (transformWorld2Img_run _ _ _ _ _ _ _ _ _ Hp Hi) in H.
  destruct (camera_relative x y z cp) as [[px py] pz].
  cbv zeta in H.
  destruct (pz == Tlit 0); injection H as <- <-.
  - right. split; reflexivity.
  - left. do 2 eexists. split; reflexivity.
Qed.

(** X2. Whenever [transformLM2Img] returns, on any inputs, the call of
    [transformLM2World] inside it has assigned all three coordinates of
    the world point and left [std::cout] as it was, and what
    [transformLM2Img] returns, outputs and state, is what
    [transformWorld2Img] returns on that world point.  So here too either
    both outputs are assigned and nothing is printed, or both are as at
    the call and [std::cout] has grown by exactly the warning. *)
Theorem X2_transformLM2Img_all_or_nothing (x_in y_in : cell T)
    (lm_pose camera_pose camera_intrinsics : list T)
    (out out' : cell T * cell T) (s s' : state T) :
  transformLM2Img x_in y_in lm_pose camera_pose camera_intrinsics out s
  = Some (out', s') ->
  exists x_w y_w z_w : T,
    transformLM2World x_in y_in lm_pose (None, None, None) s
    = Some ((Some x_w, Some y_w, Some z_w), s)
    /\ transformWorld2Img (Some x_w) (Some y_w) (Some z_w)
                          camera_pose camera_intrinsics out s
       = Some (out', s')
    /\ ((exists a b : T, out' = (Some a, Some b) /\ cout s' = cout s)
        \/ (out' = out /\ cout s' = (cout s ++ warning)%string)).
Proof.
  unfold transformLM2Img, bind. cbv zeta.
  destruct (transformLM2World _ _ _ _ _)
    as [[[[x_w y_w] z_w] s1]|] eqn:E; [|discriminate].
  intros H.
  destruct (transformLM2World_defined _ _ _ _ _ _ E)
    as (x & y & lp & -> & -> & Hl).
  rewrite (transformLM2World_run _ _ _ _ _ _ Hl) in E.
  destruct (world_point x y lp) as [[a b] c].
  injection E as <- <- <- <-.
  exists a, b, c. split; [reflexivity|]. split; [exact H|].
  exact (transformWorld2Img_outcome _ _ _ _ _ _ _ _ _ H).
Qed.

(** X3. The focal length enters only through the products f * alpha and
    f * beta: two intrinsics vectors with the same two products and the
    same u0 and v0 give the same outputs and the same state.  The three
    parameters f, alpha and beta cannot be told apart from projections. *)
Theorem X3_intrinsics_products (x y z : T)
    (camera_pose intrinsics1 intrinsics2 : list T)
    (cp : POSE.t -> T) (ci1 ci2 : INTRINSICS.t -> T)
    (out : cell T * cell T) (s : state T) :
  holds_pose camera_pose cp ->
  holds_intrinsics intrinsics1 ci1 ->
  holds_intrinsics intrinsics2 ci2 ->
  ci1 INTRINSICS.f * ci1 INTRINSICS.alpha
  = ci2 INTRINSICS.f * ci2 INTRINSICS.alpha ->
  ci1 INTRINSICS.f * ci1 INTRINSICS.beta
  = ci2 INTRINSICS.f * ci2 INTRINSICS.beta ->
  ci1 INTRINSICS.u0 = ci2 INTRINSICS.u0 ->
  ci1 INTRINSICS.v0 = ci2 INTRINSICS.v0 ->
  transformWorld2Img (Some x) (Some y) (Some z) camera_pose intrinsics1 out s
  = transformWorld2Img (Some x) (Some y) (Some z) camera_pose intrinsics2
                       out s.
Proof.
  intros Hp H1 H2 Hfa Hfb Hu Hv.
  rewrite (transformWorld2Img_run _ _ _ _ _ _ _ _ _ Hp H1).
  rewrite (transformWorld2Img_run _ _ _ _ _ _ _ _ _ Hp H2).
  destruct (camera_relative x y z cp) as [[px py] pz].
  cbv zeta. now rewrite Hfa, Hfb, Hu, Hv.
Qed.

(** X4. Whether [transformWorld2Img] takes the warning path is decided by
    the world point and the camera pose alone: with any two readable
    intrinsics vectors the two calls both warn and leave the outputs, or
    both write them. *)
Theorem X4_warning_independent_of_intrinsics (x y z : T)
    (camera_pose intrinsics1 intrinsics2 : list T)
    (cp : POSE.t -> T) (ci1 ci2 : INTRINSICS.t -> T)
    (out : cell T * cell T) (s : state T) :
  holds_pose camera_pose cp ->
  holds_intrinsics intrinsics1 ci1 ->
  holds_intrinsics intrinsics2 ci2 ->
  exists (o1 o2 : cell T * cell T) (s1 s2 : state T),
    transformWorld2Img (Some x) (Some y) (Some z) camera_pose intrinsics1
                       out s = Some (o1, s1)
    /\ transformWorld2Img (Some x) (Some y) (Some z) camera_pose intrinsics2
                          out s = Some (o2, s2)
    /\ ((o1 = out /\ o2 = out
         /\ cout s1 = (cout s ++ warning)%string
         /\ cout s2 = (cout s ++ warning)%string)
        \/ (exists a1 b1 a2 b2 : T,
               o1 = (Some a1, Some b1) /\ o2 = (Some a2, Some b2)
               /\ cout s1 = cout s /\ cout s2 = cout s)).
Proof.
  intros Hp H1 H2.
  rewrite (transformWorld2Img_run _ _ _ _ _ _ _ _ _ Hp H1).
  rewrite (transformWorld2Img_run _ _ _ _ _ _ _ _ _ Hp H2).
  destruct (camera_relative x y z cp) as [[px py] pz].
  cbv zeta. destruct (pz == Tlit 0).
  - do 4 eexists. split; [reflexivity|]. split; [reflexivity|].
    left. repeat split.
  - do 4 eexists. split; [reflexivity|]. split; [reflexivity|].
    right. do 4 eexists. repeat split.
Qed.

End Outcomes.

(** *** Over a field

    The statements of this section are for a numeric type [T] whose
    operators are those of a field, and whose [operator==] decides
    equality. *)

Section OverAField.

Context {T : Type} {ST : Scalar T} {RT : Rotation T}.
Local Open Scope scalar_scope.

Variable Tinv : T -> T.
Hypothesis Tfield :
  field_theory (Tlit 0) (Tlit 1) Tadd Tmul Tsub Tneg Tdiv Tinv eq.
Hypothesis Teqb_eq : forall a b : T, (a == b) = true <-> a = b.

Add Field scalar_field : Tfield.

Lemma Teqb_refl (a : T) : (a == a) = true.
Proof. now apply Teqb_eq. Qed.

Lemma Teqb_neq (a b : T) : (a == b) = false -> a <> b.
Proof. intros E N. apply Teqb_eq in N. congruence. Qed.

Lemma Teqb_false (a b : T) : a <> b -> (a == b) = false.
Proof.
  intros N. destruct (a == b) eqn:E; [|reflexivity].
  apply Teqb_eq in E. contradiction.
Qed.

(** X5. The world point and the camera position enter only through their
    difference: moving both by the same vector (dx, dy, dz) changes
    neither the outputs nor the state. *)
Theorem X5_translation_invariance (x y z dx dy dz : T)
    (camera_pose camera_pose' camera_intrinsics : list T)
    (cp : POSE.t -> T) (ci : INTRINSICS.t -> T)
    (out : cell T * cell T) (s : state T) :
  holds_pose camera_pose cp ->
  holds_pose camera_pose'
    (pose_of (cp POSE.X + dx) (cp POSE.Y + dy) (cp POSE.Z + dz)
             (cp POSE.Rx) (cp POSE.Ry) (cp POSE.Rz)) ->
  holds_intrinsics camera_intrinsics ci ->
  transformWorld2Img (Some (x + dx)) (Some (y + dy)) (Some (z + dz))
                     camera_pose' camera_intrinsics out s
  = transformWorld2Img (Some x) (Some y) (Some z)
                       camera_pose camera_intrinsics out s.
Proof.
  intros Hp Hp' Hi.
  rewrite (transformWorld2Img_run _ _ _ _ _ _ _ _ _ Hp' Hi).
  rewrite (transformWorld2Img_run _ _ _ _ _ _ _ _ _ Hp Hi).
  unfold camera_relative. cbn [pose_of].
  replace (x + dx - (cp POSE.X + dx)) with (x - cp POSE.X) by ring.
  replace (y + dy - (cp POSE.Y + dy)) with (y - cp POSE.Y) by ring.
  replace (z + dz - (cp POSE.Z + dz)) with (z - cp POSE.Z) by ring.
  reflexivity.
Qed.

(** X6. The camera's own position cannot be projected: when the world
    point is the translation of the camera pose, and the rotation by the
    negated rotation vector leaves the origin in place,
    [transformWorld2Img] takes the warning path whatever the rotation and
    the intrinsics are. *)
Theorem X6_camera_position_degenerate
    (camera_pose camera_intrinsics : list T)
    (cp : POSE.t -> T) (ci : INTRINSICS.t -> T)
    (out : cell T * cell T) (s : state T) :
  holds_pose camera_pose cp ->
  holds_intrinsics camera_intrinsics ci ->
  AngleAxisRotatePoint (- cp POSE.Rx, - cp POSE.Ry, - cp POSE.Rz)
                       (Tlit 0, Tlit 0, Tlit 0)
  = (Tlit 0, Tlit 0, Tlit 0) ->
  transformWorld2Img (Some (cp POSE.X)) (Some (cp POSE.Y)) (Some (cp POSE.Z))
                     camera_pose camera_intrinsics out s
  = Some (out,
          {| cout := (cout s ++ warning)%string;
             divisions :=
               divisions s
               ++ [(ci INTRINSICS.f * ci INTRINSICS.beta * Tlit 0,
                    Tlit 1)] |}).
Proof.
  intros Hp Hi Hrot.
  rewrite (transformWorld2Img_run _ _ _ _ _ _ _ _ _ Hp Hi).
  unfold camera_relative.
  replace (cp POSE.X - cp POSE.X) with (Tlit 0) by ring.
  replace (cp POSE.Y - cp POSE.Y) with (Tlit 0) by ring.
  replace (cp POSE.Z - cp POSE.Z) with (Tlit 0) by ring.
  rewrite Hrot. cbv zeta. now rewrite Teqb_refl.
Qed.

(** X7. The camera step of [transformWorld2Img] undoes the landmark step
    of [transformLM2World] for the same pose.  So a camera whose pose is
    the landmark's pose sees every landmark point (x, y) at depth
    [T(0.)]: [transformLM2Img] warns and leaves its outputs, for every
    (x, y).  The rotation by the negated vector is asked to undo the
    rotation by the vector. *)
Theorem X7_camera_at_landmark_pose (x y : T)
    (lm_pose camera_pose camera_intrinsics : list T)
    (p : POSE.t -> T) (ci : INTRINSICS.t -> T)
    (out : cell T * cell T) (s : state T) :
  holds_pose lm_pose p ->
  holds_pose camera_pose p ->
  holds_intrinsics camera_intrinsics ci ->
  (forall q : T * T * T,
      AngleAxisRotatePoint
        (- p POSE.Rx, - p POSE.Ry, - p POSE.Rz)
        (AngleAxisRotatePoint (p POSE.Rx, p POSE.Ry, p POSE.Rz) q) = q) ->
  transformLM2Img (Some x) (Some y) lm_pose camera_pose camera_intrinsics
                  out s
  = Some (out,
          {| cout := (cout s ++ warning)%string;
             divisions :=
               divisions s
               ++ [(ci INTRINSICS.f * ci INTRINSICS.beta * y, Tlit 1)] |}).
Proof.
  intros Hl Hp Hi Hinv.
  unfold transformLM2Img, bind. cbv zeta.
  rewrite (transformLM2World_run _ _ _ _ _ _ Hl).
  unfold world_point.
  destruct (AngleAxisRotatePoint _ (x, y, Tlit 0)) as [[a b] c] eqn:E.
  rewrite (transformWorld2Img_run _ _ _ _ _ _ _ _ _ Hp Hi).
  unfold camera_relative.
  replace (a + p POSE.X - p POSE.X) with a by ring.
  replace (b + p POSE.Y - p POSE.Y) with b by ring.
  replace (c + p POSE.Z - p POSE.Z) with c by ring.
  rewrite <- E, Hinv. cbv zeta. now rewrite Teqb_refl.
Qed.

(** X8. The origin of the landmark frame goes to the translation of the
    landmark pose, whatever the rotation vector is, as long as the
    rotation leaves the origin in place. *)
Theorem X8_landmark_origin (lm_pose : list T) (lp : POSE.t -> T)
    (out : cell T * cell T * cell T) (s : state T) :
  holds_pose lm_pose lp ->
  AngleAxisRotatePoint (lp POSE.Rx, lp POSE.Ry, lp POSE.Rz)
                       (Tlit 0, Tlit 0, Tlit 0)
  = (Tlit 0, Tlit 0, Tlit 0) ->
  transformLM2World (Some (Tlit 0)) (Some (Tlit 0)) lm_pose out s
  = Some ((Some (lp POSE.X), Some (lp POSE.Y), Some (lp POSE.Z)), s).
Proof.
  intros Hl Hrot.
  rewrite (transformLM2World_run _ _ _ _ _ _ Hl).
  unfold world_point. rewrite Hrot.
  replace (Tlit 0 + lp POSE.X) with (lp POSE.X) by ring.
  replace (Tlit 0 + lp POSE.Y) with (lp POSE.Y) by ring.
  replace (Tlit 0 + lp POSE.Z) with (lp POSE.Z) by ring.
  reflexivity.
Qed.

(** X9. All points of one line through the camera centre have one image:
    when the camera-relative point of a second call is k times that of a
    first one, with k and the depth not zero, both calls write the same
    two outputs.  With a negative k the second point lies behind the
    camera when the first lies in front. *)
Theorem X9_same_ray_same_image (x y z x' y' z' k : T)
    (camera_pose camera_pose' camera_intrinsics : list T)
    (cp cp' : POSE.t -> T) (ci : INTRINSICS.t -> T)
    (out : cell T * cell T) (s : state T) (px py pz : T) :
  holds_pose camera_pose cp ->
  holds_pose camera_pose' cp' ->
  holds_intrinsics camera_intrinsics ci ->
  camera_relative x y z cp = (px, py, pz) ->
  camera_relative x' y' z' cp' = (k * px, k * py, k * pz) ->
  (k == Tlit 0) = false ->
  (pz == Tlit 0) = false ->
  exists (a b : T) (s1 s2 : state T),
    transformWorld2Img (Some x) (Some y) (Some z)
                       camera_pose camera_intrinsics out s
    = Some ((Some a, Some b), s1)
    /\ transformWorld2Img (Some x') (Some y') (Some z')
                          camera_pose' camera_intrinsics out s
       = Some ((Some a, Some b), s2).
Proof.
  intros Hp Hp' Hi Hc Hc' Hk Hz.
  assert (Nk : k <> Tlit 0) by now apply Teqb_neq.
  assert (Nz : pz <> Tlit 0) by now apply Teqb_neq.
  assert (N1 : Tlit 1 <> Tlit 0) by exact (F_1_neq_0 Tfield).
  assert (Nkz : (k * pz == Tlit 0) = false).
  { apply Teqb_false. intros E. apply Nz.
    replace pz with (k * pz / k) by (field; exact Nk).
    rewrite E. field. exact Nk. }
  rewrite (transformWorld2Img_run _ _ _ _ _ _ _ _ _ Hp Hi), Hc.
  rewrite (transformWorld2Img_run _ _ _ _ _ _ _ _ _ Hp' Hi), Hc'.
  cbv zeta. rewrite Hz, Nkz.
  do 4 eexists. split; [reflexivity|].
  f_equal. f_equal. f_equal; f_equal; field; repeat split; assumption.
Qed.

(** X10. The written image point is the affine image of the normalised
    coordinates px/pz and py/pz: x_out = f*alpha * (px/pz) + u0 and
    y_out = f*beta * (py/pz) + v0. *)
Theorem X10_normalised_coordinates (x y z : T)
    (camera_pose camera_intrinsics : list T)
    (cp : POSE.t -> T) (ci : INTRINSICS.t -> T)
    (out : cell T * cell T) (s : state T) (px py pz : T) :
  holds_pose camera_pose cp ->
  holds_intrinsics camera_intrinsics ci ->
  camera_relative x y z cp = (px, py, pz) ->
  (pz == Tlit 0) = false ->
  exists s' : state T,
    transformWorld2Img (Some x) (Some y) (Some z)
                       camera_pose camera_intrinsics out s
    = Some ((Some (ci INTRINSICS.f * ci INTRINSICS.alpha * (px / pz)
                   + ci INTRINSICS.u0),
             Some (ci INTRINSICS.f * ci INTRINSICS.beta * (py / pz)
                   + ci INTRINSICS.v0)), s')
    /\ cout s' = cout s.
Proof.
  intros Hp Hi Hc Hz.
  assert (Nz : pz <> Tlit 0) by now apply Teqb_neq.
  assert (N1 : Tlit 1 <> Tlit 0) by exact (F_1_neq_0 Tfield).
  rewrite (transformWorld2Img_run _ _ _ _ _ _ _ _ _ Hp Hi), Hc.
  cbv zeta. rewrite Hz.
  eexists. split.
  - apply f_equal. apply f_equal2; [|reflexivity].
    apply f_equal2; apply f_equal; field; repeat split; assumption.
  - reflexivity.
Qed.

(** X11. A point on the optical axis, that is with camera-relative x and
    y zero and a depth that is not zero, goes to the principal point
    (u0, v0), whatever f, alpha, beta and the depth are. *)
Theorem X11_principal_point (x y z : T)
    (camera_pose camera_intrinsics : list T)
    (cp : POSE.t -> T) (ci : INTRINSICS.t -> T)
    (out : cell T * cell T) (s : state T) (pz : T) :
  holds_pose camera_pose cp ->
  holds_intrinsics camera_intrinsics ci ->
  camera_relative x y z cp = (Tlit 0, Tlit 0, pz) ->
  (pz == Tlit 0) = false ->
  exists s' : state T,
    transformWorld2Img (Some x) (Some y) (Some z)
                       camera_pose camera_intrinsics out s
    = Some ((Some (ci INTRINSICS.u0), Some (ci INTRINSICS.v0)), s')
    /\ cout s' = cout s.
Proof.
  intros Hp Hi Hc Hz.
  assert (Nz : pz <> Tlit 0) by now apply Teqb_neq.
  assert (N1 : Tlit 1 <> Tlit 0) by exact (F_1_neq_0 Tfield).
  rewrite (transformWorld2Img_run _ _ _ _ _ _ _ _ _ Hp Hi), Hc.
  cbv zeta. rewrite Hz.
  eexists. split.
  - apply f_equal. apply f_equal2; [|reflexivity].
    apply f_equal2; apply f_equal; field; repeat split; assumption.
  - reflexivity.
Qed.

(** X12. Moving the landmark moves its world points with it: adding
    (dx, dy, dz) to the translation slots of the landmark pose adds
    (dx, dy, dz) to the world point of every landmark point. *)
Theorem X12_landmark_translation (x y dx dy dz : T)
    (lm_pose lm_pose' : list T) (lp : POSE.t -> T)
    (out : cell T * cell T * cell T) (s : state T) (a b c : T) :
  holds_pose lm_pose lp ->
  holds_pose lm_pose'
    (pose_of (lp POSE.X + dx) (lp POSE.Y + dy) (lp POSE.Z + dz)
             (lp POSE.Rx) (lp POSE.Ry) (lp POSE.Rz)) ->
  transformLM2World (Some x) (Some y) lm_pose out s
  = Some ((Some a, Some b, Some c), s) ->
  transformLM2World (Some x) (Some y) lm_pose' out s
  = Some ((Some (a + dx), Some (b + dy), Some (c + dz)), s).
Proof.
  intros Hl Hl' H.
  rewrite (transformLM2World_run _ _ _ _ _ _ Hl) in H.
  rewrite (transformLM2World_run _ _ _ _ _ _ Hl').
  unfold world_point in *. cbn [pose_of].
  destruct (AngleAxisRotatePoint _ _) as [[ra rb] rc].
  injection H as <- <- <-.
  f_equal. f_equal. f_equal; [f_equal|]; f_equal; ring.
Qed.

(** X13. Moving the landmark and the camera by the same vector leaves
    the image as it is: [transformLM2Img] gives the same outputs and the
    same state when (dx, dy, dz) is added to the translation slots of
    both poses. *)
Theorem X13_joint_translation (x y dx dy dz : T)
    (lm_pose lm_pose' camera_pose camera_pose' camera_intrinsics : list T)
    (lp cp : POSE.t -> T) (ci : INTRINSICS.t -> T)
    (out : cell T * cell T) (s : state T) :
  holds_pose lm_pose lp ->
  holds_pose lm_pose'
    (pose_of (lp POSE.X + dx) (lp POSE.Y + dy) (lp POSE.Z + dz)
             (lp POSE.Rx) (lp POSE.Ry) (lp POSE.Rz)) ->
  holds_pose camera_pose cp ->
  holds_pose camera_pose'
    (pose_of (cp POSE.X + dx) (cp POSE.Y + dy) (cp POSE.Z + dz)
             (cp POSE.Rx) (cp POSE.Ry) (cp POSE.Rz)) ->
  holds_intrinsics camera_intrinsics ci ->
  transformLM2Img (Some x) (Some y) lm_pose' camera_pose' camera_intrinsics
                  out s
  = transformLM2Img (Some x) (Some y) lm_pose camera_pose camera_intrinsics
                    out s.
Proof.
  intros Hl Hl' Hp Hp' Hi.
  unfold transformLM2Img, bind. cbv zeta.
  rewrite (transformLM2World_run _ _ _ _ _ _ Hl).
  rewrite (transformLM2World_run _ _ _ _ _ _ Hl').
  unfold world_point. cbn [pose_of].
  destruct (AngleAxisRotatePoint _ _) as [[ra rb] rc].
  rewrite (transformWorld2Img_run _ _ _ _ _ _ _ _ _ Hp Hi).
  rewrite (transformWorld2Img_run _ _ _ _ _ _ _ _ _ Hp' Hi).
  unfold camera_relative. cbn [pose_of].
  replace (ra + (lp POSE.X + dx) - (cp POSE.X + dx))
    with (ra + lp POSE.X - cp POSE.X) by ring.
  replace (rb + (lp POSE.Y + dy) - (cp POSE.Y + dy))
    with (rb + lp POSE.Y - cp POSE.Y) by ring.
  replace (rc + (lp POSE.Z + dz) - (cp POSE.Z + dz))
    with (rc + lp POSE.Z - cp POSE.Z) by ring.
  reflexivity.
Qed.

End OverAField.

(** *** The real numbers are such a field, and Rodrigues' rotation is a
    rotation *)

Section RealField.
Import RealModel.
Local Open Scope R_scope.

Lemma R_scalar_field :
  field_theory (Tlit 0) (Tlit 1) Tadd Tmul Tsub Tneg Tdiv Rinv (@eq R).
Proof. exact Rfield. Qed.

Lemma Req_bool_eq (a b : R) : Teqb a b = true <-> a = b.
Proof.
  simpl. unfold Req_bool. destruct (Req_dec_T a b); split; intros H;
    (reflexivity || assumption || discriminate || contradiction).
Qed.

(** The rotation leaves the origin in place. *)
Lemma rotate_origin (w : R * R * R) : rotate w (0, 0, 0) = (0, 0, 0).
Proof.
  destruct w as [[w0 w1] w2]. unfold rotate.
  destruct (Req_dec_T _ 0); [reflexivity|].
  f_equal; [f_equal|]; ring.
Qed.

(** The rotation by the negated vector undoes the rotation. *)
Lemma rotate_inverse (w0 w1 w2 : R) (q : R * R * R) :
  rotate (- w0, - w1, - w2) (rotate (w0, w1, w2) q) = q.
Proof.
  destruct q as [[p0 p1] p2].
  assert (Et : - w0 * - w0 + - w1 * - w1 + - w2 * - w2
               = w0 * w0 + w1 * w1 + w2 * w2) by ring.
  remember (rotate (w0, w1, w2) (p0, p1, p2)) as r eqn:Er.
  unfold rotate in Er |- *. rewrite Et.
  set (t2 := w0 * w0 + w1 * w1 + w2 * w2) in *.
  destruct (Req_dec_T t2 0) as [E|N]; subst r; [reflexivity|].
  cbv zeta.
  assert (P2 : 0 <= t2) by (unfold t2; nra).
  assert (Hs : sqrt t2 * sqrt t2 = t2) by now apply sqrt_sqrt.
  assert (Ns : sqrt t2 <> 0) by (intros Z; rewrite Z in Hs; lra).
  set (th := sqrt t2) in *.
  assert (Hk : (w0 / th) * (w0 / th) + (w1 / th) * (w1 / th)
               + (w2 / th) * (w2 / th) = 1).
  { replace 1 with (t2 / (th * th)) by (rewrite Hs; field; exact N).
    unfold t2. field. exact Ns. }
  assert (Hc : cos th * cos th + sin th * sin th = 1).
  { generalize (sin2_cos2 th). unfold Rsqr. lra. }
  replace (- w0 / th) with (- (w0 / th)) by (field; exact Ns).
  replace (- w1 / th) with (- (w1 / th)) by (field; exact Ns).
  replace (- w2 / th) with (- (w2 / th)) by (field; exact Ns).
  revert Hk Hc.
  generalize (w0 / th) (w1 / th) (w2 / th) (cos th) (sin th).
  intros k0 k1 k2 c sn Hk Hc.
  f_equal; [f_equal|]; nsatz.
Qed.

(** Two runs at the real numbers, for trying the statements on. *)

Lemma sample_projection :
  transformWorld2Img (Some 3) (Some 5) (Some 7) camera_plain intrinsics_a
                     (None, None) start
  = Some ((Some ((2 * 1 * (3 - 1) + 0 * (5 - 2) + 1 * (7 - 3)) / (7 - 3)),
           Some ((0 * (3 - 1) + 2 * 3 * (5 - 2) / 1 + 1 * (7 - 3))
                 / (7 - 3))),
          {| cout := EmptyString;
             divisions :=
               [(2 * 3 * (5 - 2), 1);
                (2 * 1 * (3 - 1) + 0 * (5 - 2) + 1 * (7 - 3), 7 - 3);
                (0 * (3 - 1) + 2 * 3 * (5 - 2) / 1 + 1 * (7 - 3), 7 - 3);
                (7 - 3, 7 - 3)] |}).
Proof.
  unfold camera_plain, intrinsics_a.
  rewrite (transformWorld2Img_run _ _ _ _ _ _ _ _ _
             (holds_list_pose 1 2 3 0 0 0)
             (holds_list_intrinsics 2 1 1 1 3 0)).
  unfold camera_relative. cbn [pose_of AngleAxisRotatePoint Rotation_R
                               Tneg Tsub Tlit Scalar_R].
  rewrite rotate_neg_zero. cbv zeta. cbn [Teqb Scalar_R].
  rewrite (Req_bool_false (7 - 3) 0) by lra. reflexivity.
Qed.

Lemma sample_landmark_warning :
  transformLM2Img (Some 3) (Some 5) landmark_plain camera_plain intrinsics_a
                  (Some 8, None) start
  = Some ((Some 8, None),
          {| cout := warning;
             divisions := [(2 * 3 * (5 + 0 - 2), 1)] |}).
Proof.
  unfold transformLM2Img, bind. cbv zeta.
  rewrite landmark_plain_world.
  unfold camera_plain, intrinsics_a.
  rewrite (transformWorld2Img_run _ _ _ _ _ _ _ _ _
             (holds_list_pose 1 2 3 0 0 0)
             (holds_list_intrinsics 2 1 1 1 3 0)).
  unfold camera_relative. cbn [pose_of AngleAxisRotatePoint Rotation_R
                               Tneg Tsub Tlit Scalar_R].
  rewrite rotate_neg_zero. cbv zeta. cbn [Teqb Scalar_R].
  rewrite (Req_bool_true (0 + 3 - 3) 0) by lra. reflexivity.
Qed.

(** X1, tried on a call that writes. *)
Lemma X1_witness :
  (exists a b : R,
      (Some ((2 * 1 * (3 - 1) + 0 * (5 - 2) + 1 * (7 - 3)) / (7 - 3)),
       Some ((0 * (3 - 1) + 2 * 3 * (5 - 2) / 1 + 1 * (7 - 3)) / (7 - 3)))
      = (Some a, Some b)
      /\ EmptyString = cout start)
  \/ ((Some ((2 * 1 * (3 - 1) + 0 * (5 - 2) + 1 * (7 - 3)) / (7 - 3)),
        Some ((0 * (3 - 1) + 2 * 3 * (5 - 2) / 1 + 1 * (7 - 3)) / (7 - 3)))
       = (@None R, @None R)
       /\ EmptyString = (cout start ++ warning)%string).
Proof.
  exact (X1_transformWorld2Img_all_or_nothing
           (Some 3) (Some 5) (Some 7) camera_plain intrinsics_a
           (None, None) _ start _ sample_projection).
Defined.

(** X2, tried on a call that warns: the point (3, 5) of the landmark at
    height 3, seen from the camera at (1, 2, 3). *)
Lemma X2_witness :
  exists x_w y_w z_w : R,
    transformLM2World (Some 3) (Some 5) landmark_plain (None, None, None)
                      start
    = Some ((Some x_w, Some y_w, Some z_w), start)
    /\ transformWorld2Img (Some x_w) (Some y_w) (Some z_w)
                          camera_plain intrinsics_a (Some 8, None) start
       = Some ((Some 8, None),
               {| cout := warning;
                  divisions := [(2 * 3 * (5 + 0 - 2), 1)] |})
    /\ ((exists a b : R, (Some 8, @None R) = (Some a, Some b)
                        /\ warning = cout start)
        \/ ((Some 8, @None R) = (Some 8, None)
            /\ warning = (cout start ++ warning)%string)).
Proof.
  exact (X2_transformLM2Img_all_or_nothing
           (Some 3) (Some 5) landmark_plain camera_plain intrinsics_a
           (Some 8, None) _ start _ sample_landmark_warning).
Defined.

(** X3, tried on f = 2, alpha = 1, beta = 3 against f = 4, alpha = 1/2,
    beta = 3/2. *)
Lemma X3_witness :
  transformWorld2Img (Some 3) (Some 5) (Some 7) camera_turned intrinsics_a
                     (None, None) start
  = transformWorld2Img (Some 3) (Some 5) (Some 7) camera_turned
                       [4; 1; 1; 1 / 2; 3 / 2; 0] (None, None) start.
Proof.
  refine (X3_intrinsics_products
            3 5 7 camera_turned intrinsics_a [4; 1; 1; 1 / 2; 3 / 2; 0]
            _ _ _ (None, None) start
            (holds_list_pose 1 2 3 0 0 1)
            (holds_list_intrinsics 2 1 1 1 3 0)
            (holds_list_intrinsics 4 1 1 (1 / 2) (3 / 2) 0)
            _ _ eq_refl eq_refl); simpl; lra.
Defined.

(** X4, tried on two intrinsics vectors and the turned camera. *)
Lemma X4_witness :
  exists (o1 o2 : cell R * cell R) (s1 s2 : state R),
    transformWorld2Img (Some 3) (Some 5) (Some 7) camera_turned intrinsics_a
                       (None, None) start = Some (o1, s1)
    /\ transformWorld2Img (Some 3) (Some 5) (Some 7) camera_turned
                          intrinsics_unit (None, None) start = Some (o2, s2)
    /\ ((o1 = (None, None) /\ o2 = (None, None)
         /\ cout s1 = (cout start ++ warning)%string
         /\ cout s2 = (cout start ++ warning)%string)
        \/ (exists a1 b1 a2 b2 : R,
               o1 = (Some a1, Some b1) /\ o2 = (Some a2, Some b2)
               /\ cout s1 = cout start /\ cout s2 = cout start)).
Proof.
  exact (X4_warning_independent_of_intrinsics
           3 5 7 camera_turned intrinsics_a intrinsics_unit _ _ _
           (None, None) start
           (holds_list_pose 1 2 3 0 0 1)
           (holds_list_intrinsics 2 1 1 1 3 0)
           (holds_list_intrinsics 1 0 0 1 1 0)).
Defined.

(** X5, tried on the turned camera moved by (10, 20, 30). *)
Lemma X5_witness :
  transformWorld2Img (Some (3 + 10)) (Some (5 + 20)) (Some (7 + 30))
                     [1 + 10; 2 + 20; 3 + 30; 0; 0; 1] intrinsics_a
                     (None, None) start
  = transformWorld2Img (Some 3) (Some 5) (Some 7) camera_turned intrinsics_a
                       (None, None) start.
Proof.
  exact (X5_translation_invariance
           Rinv R_scalar_field
           3 5 7 10 20 30 camera_turned [1 + 10; 2 + 20; 3 + 30; 0; 0; 1]
           intrinsics_a _ _ (None, None) start
           (holds_list_pose 1 2 3 0 0 1)
           (holds_list_pose (1 + 10) (2 + 20) (3 + 30) 0 0 1)
           (holds_list_intrinsics 2 1 1 1 3 0)).
Defined.

(** X6, tried on the turned camera and its own position (1, 2, 3). *)
Lemma X6_witness :
  transformWorld2Img (Some 1) (Some 2) (Some 3) camera_turned intrinsics_a
                     (Some 8, None) start
  = Some ((Some 8, None),
          {| cout := warning; divisions := [(2 * 3 * 0, 1)] |}).
Proof.
  exact (X6_camera_position_degenerate
           Rinv R_scalar_field Req_bool_eq
           camera_turned intrinsics_a _ _ (Some 8, None) start
           (holds_list_pose 1 2 3 0 0 1)
           (holds_list_intrinsics 2 1 1 1 3 0)
           (rotate_origin _)).
Defined.

(** X7, tried on the turned landmark with the camera at the same pose. *)
Lemma X7_witness :
  transformLM2Img (Some 3) (Some 5) landmark_turned landmark_turned
                  intrinsics_a (Some 8, None) start
  = Some ((Some 8, None),
          {| cout := warning; divisions := [(2 * 3 * 5, 1)] |}).
Proof.
  exact (X7_camera_at_landmark_pose
           Rinv R_scalar_field Req_bool_eq
           3 5 landmark_turned landmark_turned intrinsics_a _ _
           (Some 8, None) start
           (holds_list_pose 0 0 3 0 0 1) (holds_list_pose 0 0 3 0 0 1)
           (holds_list_intrinsics 2 1 1 1 3 0)
           (rotate_inverse 0 0 1)).
Defined.

(** X8, tried on the turned landmark. *)
Lemma X8_witness :
  transformLM2World (Some 0) (Some 0) landmark_turned (None, None, None)
                    start
  = Some ((Some 0, Some 0, Some 3), start).
Proof.
  exact (X8_landmark_origin
           Rinv R_scalar_field
           landmark_turned _ (None, None, None) start
           (holds_list_pose 0 0 3 0 0 1) (rotate_origin _)).
Defined.

Lemma behind_camera :
  camera_relative (-1) (-1) (-1) (pose_of 1 2 3 0 0 0)
  = (-1 * (3 - 1), -1 * (5 - 2), -1 * (7 - 3)).
Proof.
  unfold camera_relative. cbn [pose_of AngleAxisRotatePoint Rotation_R
                               Tneg Tsub Tlit Scalar_R].
  rewrite rotate_neg_zero. f_equal; [f_equal|]; lra.
Qed.

(** X9, tried on the camera at (1, 2, 3): the world point (3, 5, 7) in
    front of it and the world point (-1, -1, -1) behind it, with k = -1. *)
Lemma X9_witness :
  exists (a b : R) (s1 s2 : state R),
    transformWorld2Img (Some 3) (Some 5) (Some 7) camera_plain intrinsics_a
                       (None, None) start
    = Some ((Some a, Some b), s1)
    /\ transformWorld2Img (Some (-1)) (Some (-1)) (Some (-1)) camera_plain
                          intrinsics_a (None, None) start
       = Some ((Some a, Some b), s2).
Proof.
  refine (X9_same_ray_same_image
            Rinv R_scalar_field Req_bool_eq
            3 5 7 (-1) (-1) (-1) (-1) camera_plain camera_plain intrinsics_a
            _ _ _ (None, None) start (3 - 1) (5 - 2) (7 - 3)
            (holds_list_pose 1 2 3 0 0 0) (holds_list_pose 1 2 3 0 0 0)
            (holds_list_intrinsics 2 1 1 1 3 0)
            (rotate_neg_zero _) behind_camera _ _);
    apply Req_bool_false; simpl; lra.
Defined.

(** X10, tried on the world point (3, 5, 7) and the camera at (1, 2, 3). *)
Lemma X10_witness :
  exists s' : state R,
    transformWorld2Img (Some 3) (Some 5) (Some 7) camera_plain intrinsics_a
                       (None, None) start
    = Some ((Some (2 * 1 * ((3 - 1) / (7 - 3)) + 1),
             Some (2 * 3 * ((5 - 2) / (7 - 3)) + 1)), s')
    /\ cout s' = EmptyString.
Proof.
  refine (X10_normalised_coordinates
            Rinv R_scalar_field Req_bool_eq
            3 5 7 camera_plain intrinsics_a _ _ (None, None) start
            (3 - 1) (5 - 2) (7 - 3)
            (holds_list_pose 1 2 3 0 0 0)
            (holds_list_intrinsics 2 1 1 1 3 0)
            (rotate_neg_zero _) _).
  apply Req_bool_false. simpl. lra.
Defined.

Lemma on_axis :
  camera_relative 1 2 7 (pose_of 1 2 3 0 0 0) = (Tlit 0, Tlit 0, 7 - 3).
Proof.
  unfold camera_relative. cbn [pose_of AngleAxisRotatePoint Rotation_R
                               Tneg Tsub Tlit Scalar_R].
  rewrite rotate_neg_zero. f_equal. f_equal; simpl; lra.
Qed.

(** X11, tried on the world point (1, 2, 7) straight ahead of the camera
    at (1, 2, 3). *)
Lemma X11_witness :
  exists s' : state R,
    transformWorld2Img (Some 1) (Some 2) (Some 7) camera_plain intrinsics_a
                       (None, None) start
    = Some ((Some 1, Some 1), s')
    /\ cout s' = EmptyString.
Proof.
  refine (X11_principal_point
            Rinv R_scalar_field Req_bool_eq
            1 2 7 camera_plain intrinsics_a _ _ (None, None) start (7 - 3)
            (holds_list_pose 1 2 3 0 0 0)
            (holds_list_intrinsics 2 1 1 1 3 0)
            on_axis _).
  apply Req_bool_false. simpl. lra.
Defined.

Lemma sample_world_point :
  exists a b c : R,
    transformLM2World (Some 3) (Some 5) landmark_turned (None, None, None)
                      start
    = Some ((Some a, Some b, Some c), start).
Proof.
  unfold landmark_turned.
  rewrite (transformLM2World_run _ _ _ _ _ _ (holds_list_pose 0 0 3 0 0 1)).
  destruct (world_point 3 5 (pose_of 0 0 3 0 0 1)) as [[a b] c].
  now exists a, b, c.
Qed.

(** X12, tried on the turned landmark moved by (10, 20, 30). *)
Lemma X12_witness :
  exists a b c : R,
    transformLM2World (Some 3) (Some 5) landmark_turned (None, None, None)
                      start
    = Some ((Some a, Some b, Some c), start)
    /\ transformLM2World (Some 3) (Some 5)
                         [0 + 10; 0 + 20; 3 + 30; 0; 0; 1]
                         (None, None, None) start
       = Some ((Some (a + 10), Some (b + 20), Some (c + 30)), start).
Proof.
  destruct sample_world_point as (a & b & c & H).
  exists a, b, c. split; [exact H|].
  exact (X12_landmark_translation
           Rinv R_scalar_field
           3 5 10 20 30 landmark_turned [0 + 10; 0 + 20; 3 + 30; 0; 0; 1] _
           (None, None, None) start a b c
           (holds_list_pose 0 0 3 0 0 1)
           (holds_list_pose (0 + 10) (0 + 20) (3 + 30) 0 0 1) H).
Defined.

(** X13, tried on the turned landmark and the turned camera, both moved
    by (10, 20, 30). *)
Lemma X13_witness :
  transformLM2Img (Some 3) (Some 5)
                  [0 + 10; 0 + 20; 3 + 30; 0; 0; 1]
                  [1 + 10; 2 + 20; 3 + 30; 0; 0; 1]
                  intrinsics_a (None, None) start
  = transformLM2Img (Some 3) (Some 5) landmark_turned camera_turned
                    intrinsics_a (None, None) start.
Proof.
  exact (X13_joint_translation
           Rinv R_scalar_field
           3 5 10 20 30
           landmark_turned [0 + 10; 0 + 20; 3 + 30; 0; 0; 1]
           camera_turned [1 + 10; 2 + 20; 3 + 30; 0; 0; 1]
           intrinsics_a _ _ _ (None, None) start
           (holds_list_pose 0 0 3 0 0 1)
           (holds_list_pose (0 + 10) (0 + 20) (3 + 30) 0 0 1)
           (holds_list_pose 1 2 3 0 0 1)
           (holds_list_pose (1 + 10) (2 + 20) (3 + 30) 0 0 1)
           (holds_list_intrinsics 2 1 1 1 3 0)).
Defined.

End RealField.

End Properties.
